(** * BloomFilter.py: a shallow embedding and its verified properties

    The class [BloomFilter] of [src/BloomFilter.py] is embedded method by
    method.  Python integers are [Z]; Python floats are idealised as exact
    real numbers ([R]): rounding, overflow and the platform's [pow] are not
    part of the model, so [bitsNeeded] and [falsePositiveRate] give the
    exact value of the expression the code evaluates in binary64.  The code
    can return another value (lines 18-19 give 11 at (1, 1, 0.1), where the
    exact value is 10) and can raise where the exact expression is defined
    (a denominator rounded to 0.0).  The theorems on constructed instances
    therefore take the instance that [__init__] returned as given, and
    state of the estimate its order, its range and its end points, not its
    digits.  Exceptions are an explicit error type;
    the methods run in a state-and-error monad over the instance's
    attributes that also records every access to the bit vector. *)

From Stdlib Require Import ZArith Reals Lra Lia Zfloor String.
From stdpp Require Import base list.

Open Scope Z_scope.

(** ** Exceptions *)

Inductive PyError : Type :=
  | ZeroDivisionError   (* division or modulo by zero, 0.0 ** negative *)
  | ValueError          (* BitVector: index range error *)
  | ComplexResult.      (* negative base with a fractional exponent: Python
                           carries on in complex arithmetic, the model stops *)

Inductive result (A : Type) : Type :=
  | Ok (a : A)
  | Raise (e : PyError).
Arguments Ok {A} a.
Arguments Raise {A} e.

(** ** The bit vector *)

(** The [BitVector] class is imported from module [BitVector], which is not
    under src/; the spec (section 6) gives it [get(index) -> bit],
    [set(index)], a fixed [size] and zero initialisation. *)
Module BV.

Abbreviation t := (list bool).

(** Modelled from the spec: [BitVector(size = n)], [n] cells, all 0. *)
Definition new (size : Z) : t := replicate (Z.to_nat size) false.

(** Modelled from the spec: the fixed size. *)
Definition size (bv : t) : Z := Z.of_nat (length bv).

Definition in_range (bv : t) (i : Z) : bool := (0 <=? i) && (i <? size bv).

(** Modelled from the spec: [bv[i]]; an index outside [0, size) is taken
    to raise. *)
Definition get (bv : t) (i : Z) : result bool :=
  if in_range bv i then
    match bv !! Z.to_nat i with
    | Some b => Ok b
    | None => Raise ValueError
    end
  else Raise ValueError.

(** Modelled from the spec: [bv[i] = 1]; an index outside [0, size) is
    taken to raise. *)
Definition set (bv : t) (i : Z) : result t :=
  if in_range bv i then Ok (<[Z.to_nat i := true]> bv) else Raise ValueError.

(** The number of 1-bits. *)
Fixpoint ones (bv : t) : Z :=
  match bv with
  | [] => 0
  | b :: bv' => (if b then 1 else 0) + ones bv'
  end.

End BV.

(** ** The instance and the monad of its methods *)

Record BloomFilter : Type := mkBloomFilter {
  numKeys : Z;
  numHashes : Z;
  maxFalsePositive : R;
  numBits : Z;
  BitVector : BV.t;
  bitsSet : Z
}.

(** What a method did to the bit vector, in order. *)
Inductive access : Type :=
  | GetBit (i : Z)
  | SetBit (i : Z).

(** A method takes the instance and returns its value, the instance it
    leaves and the accesses it made, or raises.  An exception ends the run:
    the model does not say what a call that raised leaves behind. *)
Definition M (A : Type) : Type :=
  BloomFilter -> result (A * BloomFilter * list access).

Definition ret {A} (a : A) : M A := fun s => Ok (a, s, []).

Definition bind {A B} (m : M A) (f : A -> M B) : M B :=
  fun s =>
    match m s with
    | Ok (a, s1, l1) =>
        match f a s1 with
        | Ok (b, s2, l2) => Ok (b, s2, l1 ++ l2)
        | Raise e => Raise e
        end
    | Raise e => Raise e
    end.

Definition raise {A} (e : PyError) : M A := fun _ => Raise e.

Notation "x <- m ;; k" := (bind m (fun x => k))
  (at level 100, m at next level, right associativity, only parsing).
Notation "m ;;; k" := (bind m (fun _ => k))
  (at level 100, right associativity, only parsing).

(** [self.__attr] *)
Definition attr {A} (f : BloomFilter -> A) : M A := fun s => Ok (f s, s, []).

(** [self.__BitVector[i]] *)
Definition bv_getitem (i : Z) : M bool :=
  fun s =>
    match BV.get (BitVector s) i with
    | Ok b => Ok (b, s, [GetBit i])
    | Raise e => Raise e
    end.

(** [self.__BitVector[i] = 1] *)
Definition bv_setitem (i : Z) : M unit :=
  fun s =>
    match BV.set (BitVector s) i with
    | Ok bv =>
        Ok (tt,
            mkBloomFilter (numKeys s) (numHashes s) (maxFalsePositive s)
                          (numBits s) bv (bitsSet s),
            [SetBit i])
    | Raise e => Raise e
    end.

(** [self.__bitsSet += 1] *)
Definition incr_bitsSet : M unit :=
  fun s =>
    Ok (tt,
        mkBloomFilter (numKeys s) (numHashes s) (maxFalsePositive s)
                      (numBits s) (BitVector s) (bitsSet s + 1),
        []).

(** [a % b] on Python integers: the result has the sign of [b], as
    [Z.modulo] has. *)
Definition py_mod (a b : Z) : M Z :=
  if b =? 0 then raise ZeroDivisionError else ret (a mod b).

(** A computation that touches no attribute. *)
Definition lift {A} (r : result A) : M A :=
  fun s => match r with Ok a => Ok (a, s, []) | Raise e => Raise e end.

Definition result_bind {A B} (r : result A) (f : A -> result B) : result B :=
  match r with Ok a => f a | Raise e => Raise e end.

Notation "'let!' x := r 'in' k" := (result_bind r (fun x => k))
  (at level 10, x name, r at level 100, k at level 200, only parsing).

(** ** Float arithmetic, in exact reals *)

(** [a / b]: true division. *)
Definition py_truediv (a b : R) : result R :=
  if Req_dec_T b 0 then Raise ZeroDivisionError else Ok (a / b)%R.

(** [x ** y] with a float operand, by the cases of CPython's [float_pow]:
    anything to the power 0 is 1; 0 to a negative power raises; a negative
    base is real only for an integral exponent. *)
Definition py_pow (x y : R) : result R :=
  if Req_dec_T y 0 then Ok 1%R
  else if Req_dec_T x 0 then
    (if Rlt_dec y 0 then Raise ZeroDivisionError else Ok 0%R)
  else if Rlt_dec 0 x then Ok (Rpower x y)
  else if Req_dec_T (IZR (Zfloor y)) y then Ok (powerRZ x (Zfloor y))
  else Raise ComplexResult.

(** ** Sizing and construction *)

(** [BloomFilter.__bitsNeeded] (lines 14-19). *)
Definition bitsNeeded (numKeys numHashes : Z) (maxFalsePositive : R)
  : result Z :=
  let! e1 := py_truediv 1 (IZR numHashes) in
  let! a := py_pow maxFalsePositive e1 in
  let phi := (1 - a)%R in
  let! e2 := py_truediv 1 (IZR numKeys) in
  let! b := py_pow phi e2 in
  let! q := py_truediv (IZR numHashes) (1 - b) in
  Ok (Zceil q).


(** [BloomFilter.__init__] (lines 25-37). *)
Definition __init__ (numKeys numHashes : Z) (maxFalsePositive : R)
  : result BloomFilter :=
  let! numBits := bitsNeeded numKeys numHashes maxFalsePositive in
  Ok (mkBloomFilter numKeys numHashes maxFalsePositive numBits
                    (BV.new numBits) 0).

(** ** The methods *)

Section Methods.

(** The keys and the hash function [BitHash(key, seed)], imported from
    module [BitHash]: any function will do. *)
Context {Key : Type}.
Variable BitHash : Key -> Z -> Z.

(** The body of the loop of [insert] (lines 48-59), [n] rounds to go. *)
Fixpoint insert_loop (key : Key) (n : nat) (hashLevel : Z) : M unit :=
  match n with
  | O => ret tt
  | S n' =>
      let hashLevel := BitHash key hashLevel in
      nb <- attr numBits ;;
      placeHolder <- py_mod hashLevel nb ;;
      bit <- bv_getitem placeHolder ;;
      (if negb bit
       then (bv_setitem placeHolder ;;; incr_bitsSet)
       else ret tt) ;;;
      insert_loop key n' hashLevel
  end.

(** [BloomFilter.insert] (lines 43-59). *)
Definition insert (key : Key) : M unit :=
  d <- attr numHashes ;;
  insert_loop key (Z.to_nat d) 0.

(** The body of the loop of [find] (lines 69-74), [n] rounds to go. *)
Fixpoint find_loop (key : Key) (n : nat) (hashLevel : Z) : M bool :=
  match n with
  | O => ret true
  | S n' =>
      let hashLevel := BitHash key hashLevel in
      nb <- attr numBits ;;
      i <- py_mod hashLevel nb ;;
      bit <- bv_getitem i ;;
      if negb bit then ret false else find_loop key n' hashLevel
  end.

(** [BloomFilter.find] (lines 64-77). *)
Definition find (key : Key) : M bool :=
  d <- attr numHashes ;;
  find_loop key (Z.to_nat d) 0.

(** [BloomFilter.falsePositiveRate] (lines 86-96). *)
Definition falsePositiveRate : M R :=
  nb <- attr numBits ;;
  bs <- attr bitsSet ;;
  let zeros := nb - bs in
  nb' <- attr numBits ;;
  proportionZeros <- lift (py_truediv (IZR zeros) (IZR nb')) ;;
  d <- attr numHashes ;;
  lift (py_pow (1 - proportionZeros) (IZR d)).

(** [BloomFilter.numBitsSet] (lines 101-103). *)
Definition numBitsSet : M Z := attr bitsSet.

(** The hash chain as the spec words it (section 4.2): the seed starts
    at 0, each round replaces it by [Hash(key, seed)] and yields
    [seed mod numBits]. *)
Fixpoint hashChain (key : Key) (nb : Z) (n : nat) (seed : Z) : list Z :=
  match n with
  | O => []
  | S n' =>
      let seed := BitHash key seed in
      (seed mod nb) :: hashChain key nb n' seed
  end.

End Methods.

(** ** States, runs and reachability *)

(** What construction establishes about the bit vector: it has [numBits]
    cells and [numBits] is positive. *)
Definition wf (s : BloomFilter) : Prop :=
  0 < numBits s /\ BV.size (BitVector s) = numBits s.

(** The configuration and size of two states agree. *)
Definition same_config (s s' : BloomFilter) : Prop :=
  numKeys s' = numKeys s /\ numHashes s' = numHashes s /\
  maxFalsePositive s' = maxFalsePositive s /\ numBits s' = numBits s /\
  BV.size (BitVector s') = BV.size (BitVector s).

(** The bit at index [i], 0 outside the vector. *)
Definition bitb (bv : BV.t) (i : Z) : bool :=
  match bv !! Z.to_nat i with
  | Some true => true
  | _ => false
  end.

(** One round of [insert] at index [i], as a function on states. *)
Definition mark (s : BloomFilter) (i : Z) : BloomFilter :=
  match BitVector s !! Z.to_nat i with
  | Some false =>
      mkBloomFilter (numKeys s) (numHashes s) (maxFalsePositive s)
                    (numBits s) (<[Z.to_nat i := true]> (BitVector s))
                    (bitsSet s + 1)
  | _ => s
  end.

Definition mark_log (s : BloomFilter) (i : Z) : list access :=
  match BitVector s !! Z.to_nat i with
  | Some false => [GetBit i; SetBit i]
  | _ => [GetBit i]
  end.

Fixpoint insert_log (s : BloomFilter) (idxs : list Z) : list access :=
  match idxs with
  | [] => []
  | i :: idxs' => mark_log s i ++ insert_log (mark s i) idxs'
  end.

(** [find] reads the chain up to and including the first 0 bit. *)
Fixpoint find_log (bv : BV.t) (idxs : list Z) : list access :=
  match idxs with
  | [] => []
  | i :: idxs' => GetBit i :: (if bitb bv i then find_log bv idxs' else [])
  end.

(** The indices a log reads, and the indices it writes. *)
Fixpoint reads (l : list access) : list Z :=
  match l with
  | [] => []
  | GetBit i :: l' => i :: reads l'
  | SetBit _ :: l' => reads l'
  end.

Fixpoint writes (l : list access) : list Z :=
  match l with
  | [] => []
  | GetBit _ :: l' => writes l'
  | SetBit i :: l' => i :: writes l'
  end.


(** The calls a client can make on an instance. *)
Inductive call {Key : Type} : Type :=
  | CallInsert (key : Key)
  | CallFind (key : Key)
  | CallFalsePositiveRate
  | CallNumBitsSet.
Arguments call Key : clear implicits.

(** The state a method leaves behind. *)
Definition exec {A} (m : M A) (s : BloomFilter) : result BloomFilter :=
  match m s with
  | Ok (_, s', _) => Ok s'
  | Raise e => Raise e
  end.

Definition run_call {Key} (BitHash : Key -> Z -> Z) (c : call Key)
  : BloomFilter -> result BloomFilter :=
  match c with
  | CallInsert key => exec (insert BitHash key)
  | CallFind key => exec (find BitHash key)
  | CallFalsePositiveRate => exec falsePositiveRate
  | CallNumBitsSet => exec numBitsSet
  end.

(** [insert] of each key of a list, in order. *)
Fixpoint insert_all {Key} (BitHash : Key -> Z -> Z) (keys : list Key)
  : M unit :=
  match keys with
  | [] => ret tt
  | key :: keys' => insert BitHash key ;;; insert_all BitHash keys'
  end.



(** A sequence of calls, in order; it stops at the first exception. *)
Fixpoint run_calls {Key} (BitHash : Key -> Z -> Z) (cs : list (call Key))
  (s : BloomFilter) : result BloomFilter :=
  match cs with
  | [] => Ok s
  | c :: cs' =>
      let! s' := run_call BitHash c s in
      run_calls BitHash cs' s'
  end.


(** What holds in every state of a validly constructed instance. *)
Definition inv (s : BloomFilter) : Prop :=
  wf s /\ bitsSet s = BV.ones (BitVector s) /\ 1 <= numHashes s.

(** A hash function and an instance to run the methods on. *)
Definition sampleHash (key seed : Z) : Z := 31 * seed + key + 7.

Definition sampleFilter : BloomFilter :=
  mkBloomFilter 1 1 (1 / 2) 2 [false; false] 0.

(** ** The script's entry point *)

(** An open text file: the lines still to be read.  [readline] returns the
    next line, or the empty string once the file is exhausted. *)
Definition readline (fileInput : list string) : string * list string :=
  match fileInput with
  | [] => (EmptyString, [])
  | line :: fileInput' => (line, fileInput')
  end.

Section Main.

(** [BitHash] on words, and [str.strip]: any functions will do. *)
Variable BitHash : string -> Z -> Z.
Variable strip : string -> string.

(** The loop of lines 119-121: insert the next [n] words. *)
Fixpoint main_insert_loop (n : nat) (fileInput : list string) : M unit :=
  match n with
  | O => ret tt
  | S n' =>
      let (line, fileInput') := readline fileInput in
      insert BitHash (strip line) ;;;
      main_insert_loop n' fileInput'
  end.

(** The loop of lines 142-144: count the words [find] does not report.
    The file stays open, so the handle is returned with the count. *)
Fixpoint main_missing_loop (n : nat) (fileInput : list string)
  (wordsMissing : Z) : M (Z * list string) :=
  match n with
  | O => ret (wordsMissing, fileInput)
  | S n' =>
      let (line, fileInput') := readline fileInput in
      found <- find BitHash (strip line) ;;
      main_missing_loop n' fileInput'
        (if negb found then wordsMissing + 1 else wordsMissing)
  end.

(** The loop of lines 154-156: count the words [find] reports. *)
Fixpoint main_there_loop (n : nat) (fileInput : list string)
  (wordsThere : Z) : M (Z * list string) :=
  match n with
  | O => ret (wordsThere, fileInput)
  | S n' =>
      let (line, fileInput') := readline fileInput in
      found <- find BitHash (strip line) ;;
      main_there_loop n' fileInput'
        (if found then wordsThere + 1 else wordsThere)
  end.

(** The body of [__main] (lines 106-163) for a given configuration and a
    given content of [wordlist.txt]: the three values it prints, in order
    (the projected rate, the words missing, the actual rate), when no step
    raises. *)
Definition main_with (numKeys numHashes : Z) (maxFalse : R)
  (wordlist : list string) : result (R * Z * R) :=
  let! bloom := __init__ numKeys numHashes maxFalse in
  let body : M (R * Z * R) :=
    main_insert_loop (Z.to_nat numKeys) wordlist ;;;
    rate <- falsePositiveRate ;;
    missing <- main_missing_loop (Z.to_nat numKeys) wordlist 0 ;;
    there <- main_there_loop (Z.to_nat numKeys) (snd missing) 0 ;;
    actual <- lift (py_truediv (IZR (fst there)) (IZR numKeys)) ;;
    ret (rate, fst missing, actual) in
  match body bloom with
  | Ok (out, _, _) => Ok out
  | Raise e => Raise e
  end.

(** [__main] (lines 106-163), with its configuration of lines 107-109. *)
Definition __main (wordlist : list string) : result (R * Z * R) :=
  main_with 100000 4 (5 / 100) wordlist.

(** The words the next [n] reads give, and the handle they leave. *)
Fixpoint words_read (n : nat) (fileInput : list string) : list string :=
  match n with
  | O => []
  | S n' =>
      strip (fst (readline fileInput))
      :: words_read n' (snd (readline fileInput))
  end.


End Main.

(** ** Chains of several keys *)

(** The indices the keys' chains address, key after key. *)
Fixpoint chains {Key} (BitHash : Key -> Z -> Z) (nb : Z) (n : nat)
  (keys : list Key) : list Z :=
  match keys with
  | [] => []
  | key :: keys' =>
      hashChain BitHash key nb n 0 ++ chains BitHash nb n keys'
  end.

(** A bit vector with no 1-bit. *)
Definition all_zero (bv : BV.t) : Prop :=
  forall n : nat, bv !! n <> Some true.


(** * Properties *)

(** ** The bit vector *)



Lemma ones_insert (bv : BV.t) (n : nat) :
  bv !! n = Some false -> BV.ones (<[n := true]> bv) = BV.ones bv + 1.
Proof.
  revert n. induction bv as [|b bv IH]; intros [|n] H; simpl in *;
    try discriminate.
  - injection H as ->. lia.
  - rewrite (IH n H). lia.
Qed.


Lemma in_range_spec (bv : BV.t) (i : Z) :
  BV.in_range bv i = true <-> 0 <= i < BV.size bv.
Proof. unfold BV.in_range. rewrite andb_true_iff. lia. Qed.

Lemma lookup_in_range (bv : BV.t) (i : Z) :
  0 <= i < BV.size bv -> exists b, bv !! Z.to_nat i = Some b.
Proof.
  intros H. apply lookup_lt_is_Some. unfold BV.size in H. lia.
Qed.

Lemma get_in_range (bv : BV.t) (i : Z) :
  0 <= i < BV.size bv -> BV.get bv i = Ok (bitb bv i).
Proof.
  intros H. unfold BV.get, bitb.
  destruct (in_range_spec bv i) as [_ ->]; [|exact H].
  destruct (lookup_in_range bv i H) as [b ->]. now destruct b.
Qed.

(** ** One round of [insert] *)

Lemma mark_same_config (s : BloomFilter) (i : Z) : same_config s (mark s i).
Proof.
  unfold same_config, mark.
  destruct (BitVector s !! Z.to_nat i) as [[|]|]; simpl; repeat split.
  unfold BV.size. now rewrite length_insert.
Qed.

Lemma same_config_wf (s s' : BloomFilter) :
  same_config s s' -> wf s -> wf s'.
Proof. unfold same_config, wf. intros (_ & _ & _ & -> & ->) H. exact H. Qed.

Lemma same_config_trans (s1 s2 s3 : BloomFilter) :
  same_config s1 s2 -> same_config s2 s3 -> same_config s1 s3.
Proof. unfold same_config. intuition congruence. Qed.

Lemma same_config_refl (s : BloomFilter) : same_config s s.
Proof. unfold same_config. intuition. Qed.

Lemma mark_keeps (s : BloomFilter) (i : Z) (n : nat) :
  BitVector s !! n = Some true -> BitVector (mark s i) !! n = Some true.
Proof.
  intros H. unfold mark.
  destruct (BitVector s !! Z.to_nat i) as [[|]|] eqn:E; simpl; try exact H.
  destruct (decide (Z.to_nat i = n)) as [<-|Hne].
  - congruence.
  - now rewrite list_lookup_insert_ne.
Qed.

Lemma mark_sets (s : BloomFilter) (i : Z) :
  0 <= i < BV.size (BitVector s) -> bitb (BitVector (mark s i)) i = true.
Proof.
  intros H. unfold mark, bitb.
  destruct (lookup_in_range _ _ H) as [b E]. rewrite E.
  destruct b; simpl.
  - now rewrite E.
  - rewrite list_lookup_insert_eq; [reflexivity|].
    unfold BV.size in H. lia.
Qed.

Lemma mark_set_already (s : BloomFilter) (i : Z) :
  bitb (BitVector s) i = true -> mark s i = s /\ mark_log s i = [GetBit i].
Proof.
  unfold bitb, mark, mark_log.
  destruct (BitVector s !! Z.to_nat i) as [[|]|]; intros H;
    try discriminate; split; reflexivity.
Qed.

Lemma mark_counter (s : BloomFilter) (i : Z) :
  bitsSet (mark s i) - BV.ones (BitVector (mark s i))
  = bitsSet s - BV.ones (BitVector s) /\
  bitsSet s <= bitsSet (mark s i).
Proof.
  unfold mark.
  destruct (BitVector s !! Z.to_nat i) as [[|]|] eqn:E; simpl; try lia.
  rewrite (ones_insert _ _ E). lia.
Qed.

Lemma bitb_lookup (bv : BV.t) (i : Z) :
  bitb bv i = true <-> bv !! Z.to_nat i = Some true.
Proof.
  unfold bitb. destruct (bv !! Z.to_nat i) as [[|]|]; split; congruence.
Qed.

(** ** The loops of [insert] and [find] *)

Section Loops.

Context {Key : Type}.
Variable BitHash : Key -> Z -> Z.

Lemma hashChain_length (key : Key) (nb : Z) (n : nat) (h : Z) :
  length (hashChain BitHash key nb n h) = n.
Proof. revert h. induction n as [|n IH]; intros h; simpl; auto. Qed.

Lemma hashChain_in_range (key : Key) (nb : Z) (n : nat) (h : Z) :
  0 < nb -> Forall (fun i => 0 <= i < nb) (hashChain BitHash key nb n h).
Proof.
  intros Hnb. revert h. induction n as [|n IH]; intros h; simpl.
  - constructor.
  - constructor; [apply Z.mod_pos_bound; lia | apply IH].
Qed.

(** One more round of [insert] on a well-formed state. *)
Lemma insert_loop_S (key : Key) (n : nat) (h : Z) (s : BloomFilter) :
  wf s ->
  insert_loop BitHash key (S n) h s
  = let h' := BitHash key h in
    let i := h' mod numBits s in
    match insert_loop BitHash key n h' (mark s i) with
    | Ok (u, s', l) => Ok (u, s', mark_log s i ++ l)
    | Raise e => Raise e
    end.
Proof.
  intros [Hnb Hsz]. cbv zeta.
  set (h' := BitHash key h). set (i := h' mod numBits s).
  assert (Hi : 0 <= i < BV.size (BitVector s)).
  { rewrite Hsz. apply Z.mod_pos_bound. lia. }
  simpl insert_loop. fold h'.
  unfold bind, attr, py_mod.
  destruct (Z.eqb_spec (numBits s) 0) as [E|_]; [lia|].
  unfold ret, bv_getitem. fold i.
  rewrite (get_in_range _ _ Hi).
  destruct (lookup_in_range _ _ Hi) as [b Eb].
  unfold mark, mark_log, bitb. rewrite Eb.
  destruct b; cbn [negb]; cbv beta iota.
  - destruct (insert_loop BitHash key n h' s) as [[[u s'] l]|e];
      reflexivity.
  - unfold bv_setitem, BV.set.
    destruct (in_range_spec (BitVector s) i) as [_ ->]; [|exact Hi].
    unfold incr_bitsSet. simpl.
    match goal with
    | |- context [insert_loop BitHash key n h' ?st] =>
        destruct (insert_loop BitHash key n h' st) as [[[u s'] l]|e]
    end; reflexivity.
Qed.

Lemma foldl_mark_same_config (idxs : list Z) (s : BloomFilter) :
  same_config s (foldl mark s idxs).
Proof.
  revert s. induction idxs as [|i idxs IH]; intros s; simpl.
  - apply same_config_refl.
  - eapply same_config_trans; [apply mark_same_config | apply IH].
Qed.

(** [insert]'s loop on a well-formed state never raises: it marks the
    indices of the hash chain one after the other. *)
Lemma insert_loop_run (key : Key) (n : nat) (h : Z) (s : BloomFilter) :
  wf s ->
  let chain := hashChain BitHash key (numBits s) n h in
  insert_loop BitHash key n h s
  = Ok (tt, foldl mark s chain, insert_log s chain).
Proof.
  revert h s. induction n as [|n IH]; intros h s Hwf; cbv zeta.
  - reflexivity.
  - rewrite (insert_loop_S _ _ _ _ Hwf). cbv zeta.
    set (i := BitHash key h mod numBits s).
    assert (Hwf' : wf (mark s i)).
    { eapply same_config_wf; [apply mark_same_config | exact Hwf]. }
    rewrite (IH _ _ Hwf'). cbv zeta.
    destruct (mark_same_config s i) as (_ & _ & _ & -> & _).
    reflexivity.
Qed.

Lemma insert_run (key : Key) (s : BloomFilter) :
  wf s ->
  let chain :=
    hashChain BitHash key (numBits s) (Z.to_nat (numHashes s)) 0 in
  insert BitHash key s = Ok (tt, foldl mark s chain, insert_log s chain).
Proof.
  intros Hwf. cbv zeta. unfold insert, bind, attr.
  now rewrite (insert_loop_run _ _ _ _ Hwf).
Qed.

(** [find]'s loop on a well-formed state never raises, leaves the state
    as it is and answers whether every bit of the chain is 1. *)
Lemma find_loop_run (key : Key) (n : nat) (h : Z) (s : BloomFilter) :
  wf s ->
  let chain := hashChain BitHash key (numBits s) n h in
  find_loop BitHash key n h s
  = Ok (forallb (bitb (BitVector s)) chain, s,
        find_log (BitVector s) chain).
Proof.
  intros [Hnb Hsz]. revert h. induction n as [|n IH]; intros h; cbv zeta.
  - reflexivity.
  - simpl find_loop. simpl hashChain.
    set (h' := BitHash key h). set (i := h' mod numBits s).
    assert (Hi : 0 <= i < BV.size (BitVector s)).
    { rewrite Hsz. apply Z.mod_pos_bound. lia. }
    unfold bind, attr, py_mod.
    destruct (Z.eqb_spec (numBits s) 0) as [E|_]; [lia|].
    unfold ret, bv_getitem. fold i.
    rewrite (get_in_range _ _ Hi). simpl forallb. simpl find_log.
    destruct (bitb (BitVector s) i); cbn [negb andb]; cbv beta iota.
    + rewrite IH. reflexivity.
    + reflexivity.
Qed.

Lemma find_run (key : Key) (s : BloomFilter) :
  wf s ->
  let chain :=
    hashChain BitHash key (numBits s) (Z.to_nat (numHashes s)) 0 in
  find BitHash key s
  = Ok (forallb (bitb (BitVector s)) chain, s,
        find_log (BitVector s) chain).
Proof.
  intros Hwf. cbv zeta. unfold find, bind, attr.
  now rewrite (find_loop_run _ _ _ _ Hwf).
Qed.

(** *** Marking a list of indices *)

Lemma foldl_mark_keeps (idxs : list Z) (s : BloomFilter) (n : nat) :
  BitVector s !! n = Some true ->
  BitVector (foldl mark s idxs) !! n = Some true.
Proof.
  revert s. induction idxs as [|i idxs IH]; intros s H; simpl.
  - exact H.
  - apply IH. now apply mark_keeps.
Qed.

Lemma foldl_mark_sets (idxs : list Z) (s : BloomFilter) :
  Forall (fun i => 0 <= i < BV.size (BitVector s)) idxs ->
  forallb (bitb (BitVector (foldl mark s idxs))) idxs = true.
Proof.
  revert s. induction idxs as [|i idxs IH]; intros s H; simpl.
  - reflexivity.
  - inversion H as [|? ? Hi Hrest]; subst.
    apply andb_true_iff. split.
    + apply bitb_lookup. apply foldl_mark_keeps.
      apply bitb_lookup. now apply mark_sets.
    + apply IH.
      destruct (mark_same_config s i) as (_ & _ & _ & _ & ->).
      exact Hrest.
Qed.

Lemma foldl_mark_set_already (idxs : list Z) (s : BloomFilter) :
  forallb (bitb (BitVector s)) idxs = true ->
  foldl mark s idxs = s /\ insert_log s idxs = map GetBit idxs.
Proof.
  induction idxs as [|i idxs IH]; simpl; intros H.
  - split; reflexivity.
  - apply andb_true_iff in H as [Hi Hrest].
    destruct (mark_set_already s i Hi) as [-> ->].
    destruct (IH Hrest) as [-> ->]. split; reflexivity.
Qed.

Lemma foldl_mark_counter (idxs : list Z) (s : BloomFilter) :
  bitsSet (foldl mark s idxs) - BV.ones (BitVector (foldl mark s idxs))
  = bitsSet s - BV.ones (BitVector s) /\
  bitsSet s <= bitsSet (foldl mark s idxs).
Proof.
  revert s. induction idxs as [|i idxs IH]; intros s; simpl.
  - lia.
  - destruct (IH (mark s i)) as [E1 L1].
    destruct (mark_counter s i) as [E2 L2]. lia.
Qed.

Lemma forallb_bitb_keeps (bv bv' : BV.t) (idxs : list Z) :
  (forall n, bv !! n = Some true -> bv' !! n = Some true) ->
  forallb (bitb bv) idxs = true -> forallb (bitb bv') idxs = true.
Proof.
  intros Hkeep. induction idxs as [|i idxs IH]; simpl; intros H.
  - reflexivity.
  - apply andb_true_iff in H as [Hi Hrest]. apply andb_true_iff. split.
    + apply bitb_lookup, Hkeep, bitb_lookup, Hi.
    + exact (IH Hrest).
Qed.

Lemma reads_insert_log (idxs : list Z) (s : BloomFilter) :
  reads (insert_log s idxs) = idxs.
Proof.
  revert s. induction idxs as [|i idxs IH]; intros s; simpl.
  - reflexivity.
  - unfold mark_log.
    destruct (BitVector s !! Z.to_nat i) as [[|]|]; simpl; now rewrite IH.
Qed.

Lemma find_log_spec (bv : BV.t) (idxs : list Z) :
  writes (find_log bv idxs) = [] /\
  reads (find_log bv idxs) `prefix_of` idxs /\
  (forallb (bitb bv) idxs = true -> reads (find_log bv idxs) = idxs).
Proof.
  induction idxs as [|i idxs (IH1 & IH2 & IH3)]; simpl.
  - repeat split. exists []. reflexivity.
  - destruct (bitb bv i); simpl.
    + repeat split.
      * exact IH1.
      * now apply prefix_cons.
      * intros H. now rewrite IH3.
    + repeat split.
      * exists idxs. reflexivity.
      * discriminate.
Qed.

End Loops.

(** ** Exact float arithmetic *)

Lemma py_truediv_ok (a b : R) : b <> 0%R -> py_truediv a b = Ok (a / b)%R.
Proof.
  intros H. unfold py_truediv. destruct (Req_dec_T b 0); [contradiction|].
  reflexivity.
Qed.

Lemma py_truediv_zero (a : R) : py_truediv a 0 = Raise ZeroDivisionError.
Proof.
  unfold py_truediv. destruct (Req_dec_T 0 0) as [_|H]; [reflexivity|].
  now contradiction H.
Qed.

Lemma py_pow_pos (x y : R) :
  (0 < x)%R -> y <> 0%R -> py_pow x y = Ok (Rpower x y).
Proof.
  intros Hx Hy. unfold py_pow.
  destruct (Req_dec_T y 0); [contradiction|].
  destruct (Req_dec_T x 0); [lra|].
  destruct (Rlt_dec 0 x); [reflexivity|contradiction].
Qed.






(** ** Sizing *)


(** ** Construction *)










(** ** The estimate *)


(** Whatever the state, a [falsePositiveRate] that returns has changed
    nothing. *)
Lemma falsePositiveRate_pure (s s' : BloomFilter) (r : R) (l : list access) :
  falsePositiveRate s = Ok (r, s', l) -> s' = s /\ l = [].
Proof.
  unfold falsePositiveRate, bind, attr, lift.
  destruct (py_truediv _ _) as [q|e]; [|discriminate].
  destruct (py_pow _ _) as [x|e]; [|discriminate].
  intros E. injection E as _ <- <-. split; reflexivity.
Qed.

(** ** Calls on a validly constructed instance *)

Section Calls.

Context {Key : Type}.
Variable BitHash : Key -> Z -> Z.

Lemma inv_wf (s : BloomFilter) : inv s -> wf s.
Proof. now intros [H _]. Qed.

(** [insert] keeps the invariant, the configuration and the bits
    already set, and the counter does not decrease. *)
Lemma insert_inv (key : Key) (s : BloomFilter) :
  wf s ->
  exists s' l,
    insert BitHash key s = Ok (tt, s', l) /\
    same_config s s' /\ wf s' /\
    (forall n, BitVector s !! n = Some true ->
               BitVector s' !! n = Some true) /\
    bitsSet s' - BV.ones (BitVector s') = bitsSet s - BV.ones (BitVector s)
    /\ bitsSet s <= bitsSet s'.
Proof.
  intros Hwf. eexists _, _. split; [apply (insert_run _ _ _ Hwf)|].
  set (chain := hashChain _ _ _ _ _).
  pose proof (foldl_mark_same_config chain s) as Hc.
  destruct (foldl_mark_counter chain s) as [E L].
  split; [exact Hc|]. split; [exact (same_config_wf _ _ Hc Hwf)|].
  split; [intros n; apply foldl_mark_keeps|]. split; [exact E | exact L].
Qed.

Lemma insert_all_inv (keys : list Key) (s : BloomFilter) :
  wf s ->
  exists s' l,
    insert_all BitHash keys s = Ok (tt, s', l) /\
    same_config s s' /\ wf s' /\
    (forall n, BitVector s !! n = Some true ->
               BitVector s' !! n = Some true) /\
    bitsSet s' - BV.ones (BitVector s') = bitsSet s - BV.ones (BitVector s)
    /\ bitsSet s <= bitsSet s'.
Proof.
  revert s. induction keys as [|key keys IH]; intros s Hwf.
  - exists s, []. repeat split; try tauto; try apply Hwf; auto; lia.
  - destruct (insert_inv key s Hwf) as (s1 & l1 & E1 & C1 & W1 & K1 & D1 & L1).
    destruct (IH s1 W1) as (s2 & l2 & E2 & C2 & W2 & K2 & D2 & L2).
    exists s2, (l1 ++ l2). split.
    { simpl. unfold bind. now rewrite E1, E2. }
    split; [eapply same_config_trans; eassumption|].
    split; [exact W2|].
    split; [auto|]. split; lia.
Qed.






End Calls.

Lemma writes_map_GetBit (idxs : list Z) : writes (map GetBit idxs) = [].
Proof. induction idxs as [|i idxs IH]; simpl; auto. Qed.

Lemma forallb_bitb_cases (bv : BV.t) (idxs : list Z) :
  (forallb (bitb bv) idxs = true <->
   Forall (fun i => bitb bv i = true) idxs) /\
  (forallb (bitb bv) idxs = false <->
   Exists (fun i => bitb bv i = false) idxs).
Proof.
  induction idxs as [|i idxs [IHt IHf]]; simpl.
  - split; split; auto; try discriminate. intros H. inversion H.
  - destruct (bitb bv i) eqn:E; simpl; split; split.
    + intros H. constructor; [exact E | now apply IHt].
    + intros H. inversion H; subst. now apply IHt.
    + intros H. apply Exists_cons_tl. now apply IHf.
    + intros H. inversion H as [? ? Hi|? ? Hrest]; subst;
        [congruence | now apply IHf].
    + discriminate.
    + intros H. inversion H; subst. congruence.
    + intros _. now apply Exists_cons_hd.
    + reflexivity.
Qed.

Lemma wf_sampleFilter : wf sampleFilter.
Proof. unfold wf, sampleFilter, BV.size. simpl. lia. Qed.


(** ** The methods on the sample instance *)

Example hashChain_sample :
  hashChain sampleHash 5 7 3 0 = [5; 6; 2].
Proof. reflexivity. Qed.

Example insert_sample :
  insert sampleHash 5 sampleFilter
  = Ok (tt, mkBloomFilter 1 1 (1 / 2) 2 [true; false] 1,
        [GetBit 0; SetBit 0]).
Proof. reflexivity. Qed.

Example insert_twice_sample :
  insert sampleHash 5 (mkBloomFilter 1 1 (1 / 2) 2 [true; false] 1)
  = Ok (tt, mkBloomFilter 1 1 (1 / 2) 2 [true; false] 1, [GetBit 0]).
Proof. reflexivity. Qed.

Example find_sample_absent :
  find sampleHash 5 sampleFilter = Ok (false, sampleFilter, [GetBit 0]).
Proof. reflexivity. Qed.

Example find_sample_present :
  find sampleHash 5 (mkBloomFilter 1 1 (1 / 2) 2 [true; false] 1)
  = Ok (true, mkBloomFilter 1 1 (1 / 2) 2 [true; false] 1, [GetBit 0]).
Proof. reflexivity. Qed.

(** A false positive: key 7 was never inserted, and its only index is the
    one key 5 set. *)
Example find_sample_false_positive :
  find sampleHash 7 (mkBloomFilter 1 1 (1 / 2) 2 [true; false] 1)
  = Ok (true, mkBloomFilter 1 1 (1 / 2) 2 [true; false] 1, [GetBit 0]).
Proof. reflexivity. Qed.

(** No bit vector, no modulus: on an instance with [numBits = 0] the first
    round of [insert] raises. *)
Example insert_numBits_0 :
  insert sampleHash 5 (mkBloomFilter 1 1 (1 / 2) 0 [] 0)
  = Raise ZeroDivisionError.
Proof. reflexivity. Qed.

(** * The claims *)

(** C1. No false negatives: on a well-formed instance (the bit vector has
    [numBits >= 1] cells, as after construction) [insert k] returns, and
    after it, whatever keys are inserted next, [find k] returns [True]. *)
Theorem no_false_negatives {Key : Type} (BitHash : Key -> Z -> Z)
    (k : Key) (s : BloomFilter) :
  wf s ->
  exists s1 l1,
    insert BitHash k s = Ok (tt, s1, l1) /\
    forall keys : list Key, exists s2 l2 l3,
      insert_all BitHash keys s1 = Ok (tt, s2, l2) /\
      find BitHash k s2 = Ok (true, s2, l3).
Proof.
  intros Hwf.
  destruct (insert_inv BitHash k s Hwf) as (s1 & l1 & E1 & C1 & W1 & _).
  exists s1, l1. split; [exact E1|]. intros keys.
  destruct (insert_all_inv BitHash keys s1 W1)
    as (s2 & l2 & E2 & C2 & W2 & K2 & _).
  exists s2, l2. eexists. split; [exact E2|].
  rewrite (find_run BitHash k s2 W2). cbv zeta.
  destruct C2 as (_ & -> & _ & -> & _).
  destruct C1 as (_ & -> & _ & EN & ES).
  assert (Hset : forallb (bitb (BitVector s1))
                   (hashChain BitHash k (numBits s) (Z.to_nat (numHashes s)) 0)
                 = true).
  { rewrite (insert_run BitHash k s Hwf) in E1. injection E1 as <- _.
    apply foldl_mark_sets. destruct Hwf as [Hnb ->].
    now apply hashChain_in_range. }
  rewrite EN. rewrite (forallb_bitb_keeps _ _ _ K2 Hset). reflexivity.
Qed.

Lemma no_false_negatives_witness :
  wf sampleFilter /\
  exists s1 l1,
    insert sampleHash 5 sampleFilter = Ok (tt, s1, l1) /\
    forall keys : list Z, exists s2 l2 l3,
      insert_all sampleHash keys s1 = Ok (tt, s2, l2) /\
      find sampleHash 5 s2 = Ok (true, s2, l3).
Proof.
  split; [exact wf_sampleFilter|].
  exact (no_false_negatives sampleHash 5 sampleFilter wf_sampleFilter).
Defined.




(** C4. [insert] and [find] address the same hash chain.  On a well-formed
    instance the indices [insert] reads, in order, are the [numHashes]
    indices of the spec's chain (seed 0, then [seed <- Hash(key, seed)],
    index [seed mod numBits]); [find] reads a prefix of the same chain (it
    stops at the first 0 bit), so its i-th index is [insert]'s i-th; and
    after the [insert], [find] reads the whole chain. *)
Theorem insert_find_same_chain {Key : Type} (BitHash : Key -> Z -> Z)
    (key : Key) (s : BloomFilter) :
  wf s ->
  exists s1 l1 b l2 l3,
    insert BitHash key s = Ok (tt, s1, l1) /\
    find BitHash key s = Ok (b, s, l2) /\
    find BitHash key s1 = Ok (true, s1, l3) /\
    reads l1
    = hashChain BitHash key (numBits s) (Z.to_nat (numHashes s)) 0 /\
    length (reads l1) = Z.to_nat (numHashes s) /\
    reads l2 `prefix_of` reads l1 /\
    (forall i x, reads l2 !! i = Some x -> reads l1 !! i = Some x) /\
    (b = true -> reads l2 = reads l1) /\
    reads l3 = reads l1.
Proof.
  intros Hwf.
  set (chain := hashChain BitHash key (numBits s) (Z.to_nat (numHashes s)) 0).
  pose proof (foldl_mark_same_config chain s) as Hc.
  pose proof (same_config_wf _ _ Hc Hwf) as Hwf1.
  assert (Hset : forallb (bitb (BitVector (foldl mark s chain))) chain = true).
  { apply foldl_mark_sets. destruct Hwf as [Hnb ->].
    now apply hashChain_in_range. }
  destruct (find_log_spec (BitVector s) chain) as (_ & Hpre & Hall).
  destruct (find_log_spec (BitVector (foldl mark s chain)) chain)
    as (_ & _ & Hall1).
  exists (foldl mark s chain), (insert_log s chain),
    (forallb (bitb (BitVector s)) chain), (find_log (BitVector s) chain),
    (find_log (BitVector (foldl mark s chain)) chain).
  rewrite reads_insert_log.
  split; [apply (insert_run _ _ _ Hwf)|].
  split; [apply (find_run _ _ _ Hwf)|].
  split.
  { rewrite (find_run _ _ _ Hwf1). cbv zeta.
    destruct Hc as (_ & -> & _ & -> & _). fold chain.
    now rewrite Hset. }
  split; [reflexivity|].
  split; [apply hashChain_length|].
  split; [exact Hpre|].
  split; [intros i x Hi; exact (prefix_lookup_Some _ _ _ _ Hi Hpre)|].
  split; [exact Hall | exact (Hall1 Hset)].
Qed.

Lemma insert_find_same_chain_witness :
  wf sampleFilter /\
  exists s1 l1 b l2 l3,
    insert sampleHash 5 sampleFilter = Ok (tt, s1, l1) /\
    find sampleHash 5 sampleFilter = Ok (b, sampleFilter, l2) /\
    find sampleHash 5 s1 = Ok (true, s1, l3) /\
    reads l1
    = hashChain sampleHash 5 (numBits sampleFilter)
        (Z.to_nat (numHashes sampleFilter)) 0 /\
    length (reads l1) = Z.to_nat (numHashes sampleFilter) /\
    reads l2 `prefix_of` reads l1 /\
    (forall i x, reads l2 !! i = Some x -> reads l1 !! i = Some x) /\
    (b = true -> reads l2 = reads l1) /\
    reads l3 = reads l1.
Proof.
  split; [exact wf_sampleFilter|].
  exact (insert_find_same_chain sampleHash 5 sampleFilter wf_sampleFilter).
Defined.



(** C7. Inserting a key twice is inserting it once: on a well-formed
    instance the second [insert] of the same key returns the state the
    first one left, bit vector and [bitsSet] alike, and writes no bit. *)
Theorem insert_idempotent {Key : Type} (BitHash : Key -> Z -> Z)
    (k : Key) (s : BloomFilter) :
  wf s ->
  exists s1 l1 l2,
    insert BitHash k s = Ok (tt, s1, l1) /\
    insert BitHash k s1 = Ok (tt, s1, l2) /\
    writes l2 = [].
Proof.
  intros Hwf.
  set (chain := hashChain BitHash k (numBits s) (Z.to_nat (numHashes s)) 0).
  pose proof (foldl_mark_same_config chain s) as Hc.
  pose proof (same_config_wf _ _ Hc Hwf) as Hwf1.
  assert (Hset : forallb (bitb (BitVector (foldl mark s chain))) chain = true).
  { apply foldl_mark_sets. destruct Hwf as [Hnb ->].
    now apply hashChain_in_range. }
  destruct (foldl_mark_set_already _ _ Hset) as [Efix Elog].
  exists (foldl mark s chain), (insert_log s chain), (map GetBit chain).
  split; [apply (insert_run _ _ _ Hwf)|].
  split; [|apply writes_map_GetBit].
  rewrite (insert_run _ _ _ Hwf1). cbv zeta.
  destruct Hc as (_ & -> & _ & -> & _). fold chain.
  now rewrite Efix, Elog.
Qed.

Lemma insert_idempotent_witness :
  wf sampleFilter /\
  exists s1 l1 l2,
    insert sampleHash 5 sampleFilter = Ok (tt, s1, l1) /\
    insert sampleHash 5 s1 = Ok (tt, s1, l2) /\
    writes l2 = [].
Proof.
  split; [exact wf_sampleFilter|].
  exact (insert_idempotent sampleHash 5 sampleFilter wf_sampleFilter).
Defined.

(** C8. On a well-formed instance [find] returns [False] when some bit of
    the key's chain is 0 and [True] when all of them are 1; it returns the
    state it was given, attribute for attribute, and writes no bit. *)
Theorem find_reads_only {Key : Type} (BitHash : Key -> Z -> Z)
    (key : Key) (s : BloomFilter) :
  wf s ->
  let chain :=
    hashChain BitHash key (numBits s) (Z.to_nat (numHashes s)) 0 in
  exists b l,
    find BitHash key s = Ok (b, s, l) /\
    writes l = [] /\
    (Exists (fun i => bitb (BitVector s) i = false) chain -> b = false) /\
    (Forall (fun i => bitb (BitVector s) i = true) chain -> b = true).
Proof.
  intros Hwf chain.
  destruct (forallb_bitb_cases (BitVector s) chain) as [Ht Hf].
  destruct (find_log_spec (BitVector s) chain) as (Hw & _).
  exists (forallb (bitb (BitVector s)) chain), (find_log (BitVector s) chain).
  split; [apply (find_run _ _ _ Hwf)|].
  split; [exact Hw|]. split; [apply Hf | apply Ht].
Qed.

Lemma find_reads_only_witness :
  wf sampleFilter /\
  exists b l,
    find sampleHash 5 sampleFilter = Ok (b, sampleFilter, l) /\
    writes l = [] /\
    (Exists (fun i => bitb (BitVector sampleFilter) i = false)
       (hashChain sampleHash 5 (numBits sampleFilter)
          (Z.to_nat (numHashes sampleFilter)) 0) -> b = false) /\
    (Forall (fun i => bitb (BitVector sampleFilter) i = true)
       (hashChain sampleHash 5 (numBits sampleFilter)
          (Z.to_nat (numHashes sampleFilter)) 0) -> b = true).
Proof.
  split; [exact wf_sampleFilter|].
  exact (find_reads_only sampleHash 5 sampleFilter wf_sampleFilter).
Defined.






(** * Further properties of the methods *)

(** ** Marking, bit by bit *)

Lemma BloomFilter_eq (s s' : BloomFilter) :
  same_config s s' -> BitVector s' = BitVector s -> bitsSet s' = bitsSet s ->
  s' = s.
Proof.
  destruct s, s'. unfold same_config. simpl.
  intros (-> & -> & -> & -> & _) -> ->. reflexivity.
Qed.

Lemma mark_lookup (s : BloomFilter) (i : Z) (n : nat) :
  BitVector (mark s i) !! n = Some true <->
  BitVector s !! n = Some true \/
  (n = Z.to_nat i /\ (n < length (BitVector s))%nat).
Proof.
  unfold mark.
  destruct (BitVector s !! Z.to_nat i) as [[|]|] eqn:E; simpl.
  - split; [auto|]. intros [H|[-> _]]; assumption.
  - destruct (decide (n = Z.to_nat i)) as [->|Hne].
    + apply lookup_lt_Some in E as Hlt.
      rewrite list_lookup_insert_eq by exact Hlt. split; auto.
    + rewrite list_lookup_insert_ne by congruence.
      split; [auto|]. intros [H|[H _]]; [exact H | contradiction].
  - split; [auto|]. intros [H|[-> Hlt]]; [exact H|].
    apply lookup_ge_None in E. lia.
Qed.

Lemma foldl_mark_lookup (idxs : list Z) (s : BloomFilter) (n : nat) :
  BitVector (foldl mark s idxs) !! n = Some true <->
  BitVector s !! n = Some true \/
  ((n < length (BitVector s))%nat /\ n ∈ map Z.to_nat idxs).
Proof.
  revert s. induction idxs as [|i idxs IH]; intros s; simpl.
  - split; [auto|]. intros [H|[_ H]]; [exact H|]. inversion H.
  - rewrite IH, mark_lookup.
    assert (Hlen : length (BitVector (mark s i)) = length (BitVector s)).
    { destruct (mark_same_config s i) as (_ & _ & _ & _ & H).
      unfold BV.size in H. lia. }
    rewrite Hlen. rewrite elem_of_cons. tauto.
Qed.

Lemma bool_list_ext (l1 l2 : list bool) :
  length l1 = length l2 ->
  (forall n, l1 !! n = Some true <-> l2 !! n = Some true) ->
  l1 = l2.
Proof.
  intros Hlen Hiff. apply list_eq. intros n.
  destruct (l1 !! n) as [b1|] eqn:E1; destruct (l2 !! n) as [b2|] eqn:E2.
  - destruct b1, b2; try reflexivity.
    + apply Hiff in E1. congruence.
    + apply Hiff in E2. congruence.
  - apply lookup_lt_Some in E1. apply lookup_ge_None in E2. lia.
  - apply lookup_lt_Some in E2. apply lookup_ge_None in E1. lia.
  - reflexivity.
Qed.

(** The state that marking leaves depends only on the set of indices. *)
Lemma foldl_mark_ext (idxs1 idxs2 : list Z) (s : BloomFilter) :
  (forall n, n ∈ map Z.to_nat idxs1 <-> n ∈ map Z.to_nat idxs2) ->
  foldl mark s idxs1 = foldl mark s idxs2.
Proof.
  intros Hsame.
  pose proof (foldl_mark_same_config idxs1 s) as C1.
  pose proof (foldl_mark_same_config idxs2 s) as C2.
  destruct (foldl_mark_counter idxs1 s) as [D1 _].
  destruct (foldl_mark_counter idxs2 s) as [D2 _].
  assert (Ebv : BitVector (foldl mark s idxs1) = BitVector (foldl mark s idxs2)).
  { apply bool_list_ext.
    - destruct C1 as (_ & _ & _ & _ & H1). destruct C2 as (_ & _ & _ & _ & H2).
      unfold BV.size in *. lia.
    - intros n. rewrite !foldl_mark_lookup. rewrite Hsame. tauto. }
  apply BloomFilter_eq.
  - unfold same_config in *. intuition congruence.
  - exact Ebv.
  - rewrite Ebv in D1. lia.
Qed.

Lemma to_nat_elem_of (i : Z) (idxs : list Z) :
  0 <= i -> Forall (fun j => 0 <= j) idxs ->
  Z.to_nat i ∈ map Z.to_nat idxs <-> i ∈ idxs.
Proof.
  intros Hi Hall. rewrite list_elem_of_fmap. split.
  - intros (j & E & Hj). rewrite Forall_forall in Hall.
    pose proof (Hall j Hj) as H0. cbv beta in H0.
    assert (i = j) by lia. now subst.
  - intros H. exists i. split; [reflexivity | exact H].
Qed.


Lemma ones_all_zero (bv : BV.t) : all_zero bv -> BV.ones bv = 0.
Proof.
  unfold all_zero. induction bv as [|b bv IH]; intros H; simpl.
  - reflexivity.
  - destruct b.
    + exfalso. exact (H 0%nat eq_refl).
    + rewrite IH; [reflexivity|]. intros n. exact (H (S n)).
Qed.

Lemma all_zero_replicate (n : nat) : all_zero (replicate n false).
Proof.
  intros m H. apply lookup_replicate in H as [H _]. discriminate.
Qed.

(** ** Several keys *)

Section Keys.

Context {Key : Type}.
Variable BitHash : Key -> Z -> Z.

Lemma chains_in_range (nb : Z) (n : nat) (keys : list Key) :
  0 < nb -> Forall (fun i => 0 <= i < nb) (chains BitHash nb n keys).
Proof.
  intros Hnb. induction keys as [|k keys IH]; simpl.
  - constructor.
  - apply Forall_app. split; [now apply hashChain_in_range | exact IH].
Qed.

Lemma elem_of_chains (nb : Z) (n : nat) (keys : list Key) (i : Z) :
  i ∈ chains BitHash nb n keys <->
  exists k, k ∈ keys /\ i ∈ hashChain BitHash k nb n 0.
Proof.
  induction keys as [|k keys IH]; simpl.
  - split; [intros H; inversion H|]. intros (k & H & _). inversion H.
  - rewrite elem_of_app, IH. split.
    + intros [H|(k' & Hk' & H)].
      * exists k. split; [apply elem_of_cons; now left | exact H].
      * exists k'. split; [apply elem_of_cons; now right | exact H].
    + intros (k' & Hk' & H). apply elem_of_cons in Hk' as [->|Hk'].
      * now left.
      * right. now exists k'.
Qed.

(** A list of inserts marks the keys' chains, one after the other. *)
Lemma insert_all_run (keys : list Key) (s : BloomFilter) :
  wf s ->
  exists l,
    insert_all BitHash keys s
    = Ok (tt,
          foldl mark s
            (chains BitHash (numBits s) (Z.to_nat (numHashes s)) keys),
          l).
Proof.
  revert s. induction keys as [|k keys IH]; intros s Hwf.
  - exists []. reflexivity.
  - simpl insert_all. simpl chains. unfold bind.
    rewrite (insert_run BitHash k s Hwf). cbv zeta.
    set (chain := hashChain BitHash k (numBits s) (Z.to_nat (numHashes s)) 0).
    pose proof (foldl_mark_same_config chain s) as Hc.
    destruct (IH _ (same_config_wf _ _ Hc Hwf)) as [l E].
    rewrite E. destruct Hc as (_ & -> & _ & -> & _).
    rewrite foldl_app. eexists. reflexivity.
Qed.

(** After a list of inserts on a well-formed instance, the bit at an
    index of the vector is 1 exactly if it was, or the index is in the
    chain of one of the keys. *)
Lemma insert_all_bit (keys : list Key) (s : BloomFilter) (i : Z) :
  wf s -> 0 <= i < numBits s ->
  bitb (BitVector
          (foldl mark s
             (chains BitHash (numBits s) (Z.to_nat (numHashes s)) keys))) i
  = true <->
  bitb (BitVector s) i = true \/
  exists k, k ∈ keys /\
    i ∈ hashChain BitHash k (numBits s) (Z.to_nat (numHashes s)) 0.
Proof.
  intros [Hnb Hsz] Hi. rewrite !bitb_lookup, foldl_mark_lookup.
  rewrite to_nat_elem_of; [|lia|].
  - rewrite elem_of_chains. unfold BV.size in Hsz.
    split; [tauto|]. intros [H|H]; [now left|]. right. split; [lia|exact H].
  - eapply Forall_impl; [apply chains_in_range; exact Hnb|].
    intros j Hj. cbv beta in Hj. lia.
Qed.

(** What [find] answers in terms of the bits. *)
Lemma find_true_iff (key : Key) (s : BloomFilter) :
  wf s ->
  exists b l,
    find BitHash key s = Ok (b, s, l) /\
    (b = true <->
     forall i,
       i ∈ hashChain BitHash key (numBits s) (Z.to_nat (numHashes s)) 0 ->
       bitb (BitVector s) i = true).
Proof.
  intros Hwf. eexists _, _. split; [apply (find_run _ _ _ Hwf)|].
  destruct (forallb_bitb_cases (BitVector s)
              (hashChain BitHash key (numBits s) (Z.to_nat (numHashes s)) 0))
    as [Ht _].
  rewrite Ht, Forall_forall. reflexivity.
Qed.

End Keys.

(** ** What one [insert] writes *)

Lemma writes_app (l1 l2 : list access) :
  writes (l1 ++ l2) = writes l1 ++ writes l2.
Proof.
  induction l1 as [|[i|i] l1 IH]; simpl; [reflexivity | exact IH |].
  now rewrite IH.
Qed.

Lemma writes_mark_log (s : BloomFilter) (i : Z) :
  (BitVector s !! Z.to_nat i = Some false /\
   writes (mark_log s i) = [i] /\ bitsSet (mark s i) = bitsSet s + 1 /\
   BitVector (mark s i) !! Z.to_nat i = Some true) \/
  (BitVector s !! Z.to_nat i <> Some false /\
   writes (mark_log s i) = [] /\ mark s i = s).
Proof.
  unfold mark_log, mark.
  destruct (BitVector s !! Z.to_nat i) as [[|]|] eqn:E; simpl.
  - right. repeat split. discriminate.
  - left. repeat split. apply list_lookup_insert_eq.
    now apply lookup_lt_Some in E.
  - right. repeat split. discriminate.
Qed.

(** The writes of a run of rounds: as many as the counter grows by, at
    most one per round, each to a bit that was not 1, no index twice. *)
Lemma insert_log_writes (idxs : list Z) (s : BloomFilter) :
  bitsSet (foldl mark s idxs)
  = bitsSet s + Z.of_nat (length (writes (insert_log s idxs))) /\
  (length (writes (insert_log s idxs)) <= length idxs)%nat /\
  Forall (fun i => BitVector s !! Z.to_nat i <> Some true /\ i ∈ idxs)
    (writes (insert_log s idxs)) /\
  NoDup (writes (insert_log s idxs)).
Proof.
  revert s. induction idxs as [|i idxs IH]; intros s; simpl.
  - repeat split; try lia; constructor.
  - destruct (IH (mark s i)) as (Ecnt & Hlen & Hall & Hnd).
    rewrite writes_app, length_app.
    destruct (writes_mark_log s i) as [(E & -> & Einc & Eset)|(E & -> & Efix)].
    + simpl. split; [lia|]. split; [lia|]. split.
      * constructor; [split; [congruence | apply elem_of_cons; now left]|].
        eapply Forall_impl; [exact Hall|]. intros j [Hj Hin]. split.
        -- intros Hs. apply Hj. now apply mark_keeps.
        -- apply elem_of_cons. now right.
      * constructor; [|exact Hnd]. intros Hin.
        rewrite Forall_forall in Hall. destruct (Hall i Hin) as [Hj _].
        contradiction.
    + rewrite Efix in *. simpl. split; [lia|]. split; [lia|]. split.
      * eapply Forall_impl; [exact Hall|]. intros j [Hj Hin].
        split; [exact Hj | apply elem_of_cons; now right].
      * exact Hnd.
Qed.

Lemma foldl_mark_increases (idxs : list Z) (s : BloomFilter) :
  Forall (fun i => 0 <= i < BV.size (BitVector s)) idxs ->
  forallb (bitb (BitVector s)) idxs = false ->
  bitsSet s < bitsSet (foldl mark s idxs).
Proof.
  revert s. induction idxs as [|i idxs IH]; intros s Hr Hf; simpl in *.
  - discriminate.
  - inversion Hr as [|? ? Hi Hrest]; subst.
    destruct (foldl_mark_counter idxs (mark s i)) as [_ Hmono].
    destruct (bitb (BitVector s) i) eqn:E; simpl in Hf.
    + destruct (mark_set_already s i E) as [-> _]. now apply IH.
    + destruct (writes_mark_log s i) as [(_ & _ & Einc & _)|(Ene & _ & _)].
      * lia.
      * exfalso. destruct (lookup_in_range _ _ Hi) as [b Eb].
        unfold bitb in E. rewrite Eb in E, Ene. destruct b; congruence.
Qed.

(** * Further properties *)

(** X1. A key that [find] reports, inserted or not, costs nothing to
    insert: on a well-formed instance, if [find key] returns [True] then
    [insert key] returns the state it was given and writes no bit. *)
Theorem insert_after_find_true {Key : Type} (BitHash : Key -> Z -> Z)
    (key : Key) (s : BloomFilter) (l : list access) :
  wf s -> find BitHash key s = Ok (true, s, l) ->
  exists l', insert BitHash key s = Ok (tt, s, l') /\ writes l' = [].
Proof.
  intros Hwf Hfind. rewrite (find_run _ _ _ Hwf) in Hfind.
  injection Hfind as Hall _.
  destruct (foldl_mark_set_already _ _ Hall) as [Efix Elog].
  exists (map GetBit
            (hashChain BitHash key (numBits s) (Z.to_nat (numHashes s)) 0)).
  split; [|apply writes_map_GetBit].
  rewrite (insert_run _ _ _ Hwf). cbv zeta. now rewrite Efix, Elog.
Qed.

Lemma insert_after_find_true_witness :
  let s := mkBloomFilter 1 1 (1 / 2) 2 [true; false] 1 in
  wf s /\ find sampleHash 7 s = Ok (true, s, [GetBit 0]) /\
  exists l', insert sampleHash 7 s = Ok (tt, s, l') /\ writes l' = [].
Proof.
  cbv zeta.
  assert (Hwf : wf (mkBloomFilter 1 1 (1 / 2) 2 [true; false] 1)).
  { unfold wf, BV.size. simpl. lia. }
  split; [exact Hwf|]. split; [reflexivity|].
  exact (insert_after_find_true sampleHash 7 _ [GetBit 0] Hwf eq_refl).
Defined.

(** X2. A key that [find] does not report is new to the bit vector: on a
    well-formed instance, if [find key] returns [False] then [insert key]
    sets at least one bit and [bitsSet] grows. *)
Theorem insert_after_find_false {Key : Type} (BitHash : Key -> Z -> Z)
    (key : Key) (s : BloomFilter) (l : list access) :
  wf s -> find BitHash key s = Ok (false, s, l) ->
  exists s' l',
    insert BitHash key s = Ok (tt, s', l') /\
    bitsSet s < bitsSet s' /\ writes l' <> [].
Proof.
  intros Hwf Hfind. rewrite (find_run _ _ _ Hwf) in Hfind.
  injection Hfind as Hsome _.
  set (chain := hashChain BitHash key (numBits s) (Z.to_nat (numHashes s)) 0)
    in *.
  assert (Hlt : bitsSet s < bitsSet (foldl mark s chain)).
  { apply foldl_mark_increases; [|exact Hsome].
    destruct Hwf as [Hnb ->]. now apply hashChain_in_range. }
  exists (foldl mark s chain), (insert_log s chain).
  split; [apply (insert_run _ _ _ Hwf)|]. split; [exact Hlt|].
  destruct (insert_log_writes chain s) as (Ecnt & _). intros E.
  rewrite E in Ecnt. simpl in Ecnt. lia.
Qed.

Lemma insert_after_find_false_witness :
  wf sampleFilter /\
  find sampleHash 5 sampleFilter = Ok (false, sampleFilter, [GetBit 0]) /\
  exists s' l',
    insert sampleHash 5 sampleFilter = Ok (tt, s', l') /\
    bitsSet sampleFilter < bitsSet s' /\ writes l' <> [].
Proof.
  split; [exact wf_sampleFilter|]. split; [reflexivity|].
  exact (insert_after_find_false sampleHash 5 sampleFilter [GetBit 0]
           wf_sampleFilter eq_refl).
Defined.

(** X3. [bitsSet] counts the writes: on a well-formed instance one
    [insert] raises [bitsSet] by the number of bits it writes, which is at
    most [numHashes]; it writes no index twice, and only indices of the
    key's chain whose bit was 0. *)
Theorem insert_counts_writes {Key : Type} (BitHash : Key -> Z -> Z)
    (key : Key) (s : BloomFilter) :
  wf s ->
  exists s' l,
    insert BitHash key s = Ok (tt, s', l) /\
    bitsSet s' = bitsSet s + Z.of_nat (length (writes l)) /\
    (length (writes l) <= Z.to_nat (numHashes s))%nat /\
    NoDup (writes l) /\
    Forall (fun i =>
              bitb (BitVector s) i = false /\
              i ∈ hashChain BitHash key (numBits s)
                    (Z.to_nat (numHashes s)) 0)
           (writes l).
Proof.
  intros Hwf.
  set (chain := hashChain BitHash key (numBits s) (Z.to_nat (numHashes s)) 0).
  destruct (insert_log_writes chain s) as (Ecnt & Hlen & Hall & Hnd).
  exists (foldl mark s chain), (insert_log s chain).
  split; [apply (insert_run _ _ _ Hwf)|]. split; [exact Ecnt|].
  split; [unfold chain in Hlen; now rewrite hashChain_length in Hlen|].
  split; [exact Hnd|].
  eapply Forall_impl; [exact Hall|]. intros i [Hi Hin]. split; [|exact Hin].
  destruct (bitb (BitVector s) i) eqn:E; [|reflexivity].
  apply bitb_lookup in E. contradiction.
Qed.

Lemma insert_counts_writes_witness :
  wf sampleFilter /\
  exists s' l,
    insert sampleHash 5 sampleFilter = Ok (tt, s', l) /\
    bitsSet s' = bitsSet sampleFilter + Z.of_nat (length (writes l)) /\
    (length (writes l) <= Z.to_nat (numHashes sampleFilter))%nat /\
    NoDup (writes l) /\
    Forall (fun i =>
              bitb (BitVector sampleFilter) i = false /\
              i ∈ hashChain sampleHash 5 (numBits sampleFilter)
                    (Z.to_nat (numHashes sampleFilter)) 0)
           (writes l).
Proof.
  split; [exact wf_sampleFilter|].
  exact (insert_counts_writes sampleHash 5 sampleFilter wf_sampleFilter).
Defined.

(** X4. The state a list of inserts leaves depends only on which keys are
    in the list, not on their order or on repetitions: on a well-formed
    instance two lists with the same keys lead to the same state. *)
Theorem insert_all_same_keys {Key : Type} (BitHash : Key -> Z -> Z)
    (keys keys' : list Key) (s : BloomFilter) :
  wf s -> (forall k, k ∈ keys <-> k ∈ keys') ->
  exists s' l l',
    insert_all BitHash keys s = Ok (tt, s', l) /\
    insert_all BitHash keys' s = Ok (tt, s', l').
Proof.
  intros Hwf Hsame.
  destruct (insert_all_run BitHash keys s Hwf) as [l E].
  destruct (insert_all_run BitHash keys' s Hwf) as [l' E'].
  eexists _, l, l'. split; [exact E|]. rewrite E'. do 3 f_equal.
  apply foldl_mark_ext. intros n. rewrite !list_elem_of_fmap.
  split; intros (i & -> & Hi); exists i; (split; [reflexivity|]);
    apply elem_of_chains in Hi as (k & Hk & Hin); apply elem_of_chains;
    exists k; (split; [apply Hsame; exact Hk | exact Hin]).
Qed.

Lemma insert_all_same_keys_witness :
  wf sampleFilter /\ (forall k : Z, k ∈ [5; 8] <-> k ∈ [8; 5; 5]) /\
  exists s' l l',
    insert_all sampleHash [5; 8] sampleFilter = Ok (tt, s', l) /\
    insert_all sampleHash [8; 5; 5] sampleFilter = Ok (tt, s', l').
Proof.
  assert (Hsame : forall k : Z, k ∈ [5; 8] <-> k ∈ [8; 5; 5]).
  { intros k. rewrite !elem_of_cons. tauto. }
  split; [exact wf_sampleFilter|]. split; [exact Hsame|].
  exact (insert_all_same_keys sampleHash [5; 8] [8; 5; 5] sampleFilter
           wf_sampleFilter Hsame).
Defined.

(** X5. Which keys [find] reports.  On a well-formed instance whose bits
    are all 0, after the keys of a list are inserted, [find key] returns
    [True] exactly if every index of [key]'s chain is an index of the chain
    of some inserted key; so an inserted key is reported, and a key that is
    reported without having been inserted has its chain covered by the
    chains of the others. *)
Theorem find_after_inserts {Key : Type} (BitHash : Key -> Z -> Z)
    (keys : list Key) (s : BloomFilter) :
  wf s -> all_zero (BitVector s) ->
  exists s' l,
    insert_all BitHash keys s = Ok (tt, s', l) /\
    forall key : Key, exists b l',
      find BitHash key s' = Ok (b, s', l') /\
      (b = true <->
       forall i,
         i ∈ hashChain BitHash key (numBits s) (Z.to_nat (numHashes s)) 0 ->
         exists k, k ∈ keys /\
           i ∈ hashChain BitHash k (numBits s) (Z.to_nat (numHashes s)) 0).
Proof.
  intros Hwf Hzero.
  destruct (insert_all_run BitHash keys s Hwf) as [l E].
  eexists _, l. split; [exact E|]. intros key.
  set (s' := foldl mark s _) in *.
  pose proof (foldl_mark_same_config
                (chains BitHash (numBits s) (Z.to_nat (numHashes s)) keys) s)
    as Hc. fold s' in Hc.
  pose proof (same_config_wf _ _ Hc Hwf) as Hwf'.
  destruct (find_true_iff BitHash key s' Hwf') as (b & l' & Ef & Hb).
  exists b, l'. split; [exact Ef|]. rewrite Hb.
  destruct Hc as (_ & -> & _ & -> & _).
  pose proof (hashChain_in_range BitHash key (numBits s)
                (Z.to_nat (numHashes s)) 0 (proj1 Hwf)) as Hrange.
  rewrite Forall_forall in Hrange.
  split; intros H i Hi; specialize (H i Hi); pose proof (Hrange i Hi) as Hr;
    cbv beta in Hr.
  - apply (insert_all_bit BitHash keys s i Hwf Hr) in H as [H|H];
      [|exact H].
    apply bitb_lookup in H. now apply Hzero in H.
  - apply (insert_all_bit BitHash keys s i Hwf Hr). now right.
Qed.

Lemma find_after_inserts_witness :
  wf sampleFilter /\ all_zero (BitVector sampleFilter) /\
  exists s' l,
    insert_all sampleHash [5; 8] sampleFilter = Ok (tt, s', l) /\
    forall key : Z, exists b l',
      find sampleHash key s' = Ok (b, s', l') /\
      (b = true <->
       forall i,
         i ∈ hashChain sampleHash key (numBits sampleFilter)
               (Z.to_nat (numHashes sampleFilter)) 0 ->
         exists k, k ∈ [5; 8] /\
           i ∈ hashChain sampleHash k (numBits sampleFilter)
                 (Z.to_nat (numHashes sampleFilter)) 0).
Proof.
  assert (Hz : all_zero (BitVector sampleFilter)).
  { exact (all_zero_replicate 2). }
  split; [exact wf_sampleFilter|]. split; [exact Hz|].
  exact (find_after_inserts sampleHash [5; 8] sampleFilter
           wf_sampleFilter Hz).
Defined.

(** ** A fresh instance *)




(** ** Calls never clear a bit *)

Lemma run_call_keeps {Key : Type} (BitHash : Key -> Z -> Z)
    (c : call Key) (s s' : BloomFilter) :
  wf s -> run_call BitHash c s = Ok s' ->
  wf s' /\ same_config s s' /\
  (forall n, BitVector s !! n = Some true -> BitVector s' !! n = Some true).
Proof.
  intros Hwf. destruct c as [key|key| |]; simpl; unfold exec.
  - destruct (insert_inv BitHash key s Hwf) as (s1 & l & E & C & W & K & _).
    rewrite E. intros H. injection H as <-. auto.
  - rewrite (find_run BitHash key s Hwf). intros H. injection H as <-.
    split; [exact Hwf|]. split; [apply same_config_refl | auto].
  - destruct (falsePositiveRate s) as [[[r s1] l]|e] eqn:E; [|discriminate].
    apply falsePositiveRate_pure in E as [-> _].
    intros H. injection H as <-.
    split; [exact Hwf|]. split; [apply same_config_refl | auto].
  - intros H. injection H as <-.
    split; [exact Hwf|]. split; [apply same_config_refl | auto].
Qed.

Lemma run_calls_keeps {Key : Type} (BitHash : Key -> Z -> Z)
    (cs : list (call Key)) (s s' : BloomFilter) :
  wf s -> run_calls BitHash cs s = Ok s' ->
  wf s' /\ same_config s s' /\
  (forall n, BitVector s !! n = Some true -> BitVector s' !! n = Some true).
Proof.
  revert s. induction cs as [|c cs IH]; intros s Hwf; simpl.
  - intros H. injection H as <-.
    split; [exact Hwf|]. split; [apply same_config_refl | auto].
  - unfold result_bind.
    destruct (run_call BitHash c s) as [s1|e] eqn:E1; [|discriminate].
    intros E2.
    destruct (run_call_keeps BitHash c s s1 Hwf E1) as (W1 & C1 & K1).
    destruct (IH s1 W1 E2) as (W2 & C2 & K2).
    split; [exact W2|]. split; [eapply same_config_trans; eassumption|].
    auto.
Qed.

(** X7. Nothing clears a bit, so a positive answer stays: on a well-formed
    instance, after any sequence of calls that returns, every bit that was 1
    is still 1, the configuration and size are the same, and a key that
    [find] reported before is reported after. *)
Theorem find_true_stable {Key : Type} (BitHash : Key -> Z -> Z)
    (cs : list (call Key)) (s s' : BloomFilter) :
  wf s -> run_calls BitHash cs s = Ok s' ->
  same_config s s' /\
  (forall n, BitVector s !! n = Some true -> BitVector s' !! n = Some true) /\
  forall (key : Key) (l : list access),
    find BitHash key s = Ok (true, s, l) ->
    exists l', find BitHash key s' = Ok (true, s', l').
Proof.
  intros Hwf Hrun.
  destruct (run_calls_keeps BitHash cs s s' Hwf Hrun) as (W & C & K).
  split; [exact C|]. split; [exact K|]. intros key l Hfind.
  rewrite (find_run _ _ _ Hwf) in Hfind. injection Hfind as Hall _.
  rewrite (find_run _ _ _ W). cbv zeta.
  destruct C as (_ & -> & _ & -> & _).
  rewrite (forallb_bitb_keeps _ _ _ K Hall). eexists. reflexivity.
Qed.

Lemma find_true_stable_witness :
  let s := mkBloomFilter 1 1 (1 / 2) 2 [true; false] 1 in
  let s' := mkBloomFilter 1 1 (1 / 2) 2 [true; true] 2 in
  wf s /\
  run_calls sampleHash [CallInsert 6; CallFind 9; CallNumBitsSet] s = Ok s' /\
  same_config s s' /\
  (forall n, BitVector s !! n = Some true -> BitVector s' !! n = Some true) /\
  forall (key : Z) (l : list access),
    find sampleHash key s = Ok (true, s, l) ->
    exists l', find sampleHash key s' = Ok (true, s', l').
Proof.
  cbv zeta.
  assert (Hwf : wf (mkBloomFilter 1 1 (1 / 2) 2 [true; false] 1)).
  { unfold wf, BV.size. simpl. lia. }
  split; [exact Hwf|]. split; [reflexivity|].
  exact (find_true_stable sampleHash
           [CallInsert 6; CallFind 9; CallNumBitsSet] _ _ Hwf eq_refl).
Defined.

(** ** The range of the estimate *)






(** ** Configurations that construction accepts and should not *)

Lemma no_rounds {Key : Type} (BitHash : Key -> Z -> Z)
    (key : Key) (s : BloomFilter) :
  numHashes s <= 0 ->
  insert BitHash key s = Ok (tt, s, []) /\
  find BitHash key s = Ok (true, s, []).
Proof.
  intros Hd. unfold insert, find, bind, attr.
  replace (Z.to_nat (numHashes s)) with 0%nat by lia. split; reflexivity.
Qed.

Lemma falsePositiveRate_no_bits (s : BloomFilter) :
  numBits s = 0 -> falsePositiveRate s = Raise ZeroDivisionError.
Proof.
  intros Hnb. unfold falsePositiveRate, bind, attr, lift. rewrite Hnb.
  now rewrite py_truediv_zero.
Qed.

Lemma no_bits {Key : Type} (BitHash : Key -> Z -> Z)
    (key : Key) (s : BloomFilter) :
  numBits s = 0 -> 1 <= numHashes s ->
  insert BitHash key s = Raise ZeroDivisionError /\
  find BitHash key s = Raise ZeroDivisionError.
Proof.
  intros Hnb Hd. unfold insert, find, bind, attr.
  destruct (Z.to_nat (numHashes s)) as [|m] eqn:Em; [lia|].
  simpl. unfold bind, attr, py_mod. rewrite Hnb. split; reflexivity.
Qed.

Lemma bitsNeeded_sample_neg : bitsNeeded 1 (-1) (1 / 2) = Ok 0.
Proof.
  unfold bitsNeeded, result_bind.
  rewrite (py_truediv_ok 1 (-1)) by lra.
  replace (1 / -1)%R with (- (1))%R by lra.
  rewrite py_pow_pos by lra. rewrite Rpower_Ropp, Rpower_1 by lra.
  rewrite (py_truediv_ok 1 1) by lra.
  replace (1 / 1)%R with 1%R by lra.
  replace (1 - / (1 / 2))%R with (-1)%R by lra.
  assert (Epow : py_pow (-1) 1 = Ok (-1)%R).
  { unfold py_pow.
    destruct (Req_dec_T 1 0); [lra|].
    destruct (Req_dec_T (-1) 0); [lra|].
    destruct (Rlt_dec 0 (-1)); [lra|].
    rewrite (ZfloorZ 1).
    destruct (Req_dec_T 1 1) as [_|H]; [|now contradiction H].
    simpl. now rewrite Rmult_1_r. }
  rewrite Epow.
  rewrite py_truediv_ok by lra.
  f_equal. apply Zceil_eq. simpl. lra.
Qed.

(** X10. An instance without hash rounds reports everything.  Whenever
    construction with [numHashes <= 0] returns an instance (nothing checks
    [numHashes]; [__init__(1, -1, 0.5)] returns one, with no bit at all),
    on it [insert] does nothing and [find] returns [True] for every key,
    neither reading a bit. *)
Theorem init_without_rounds {Key : Type} (BitHash : Key -> Z -> Z)
    (n d : Z) (p : R) (s0 : BloomFilter) :
  d <= 0 -> __init__ n d p = Ok s0 ->
  forall key : Key,
    insert BitHash key s0 = Ok (tt, s0, []) /\
    find BitHash key s0 = Ok (true, s0, []).
Proof.
  intros Hd E key. apply no_rounds.
  unfold __init__, result_bind in E.
  destruct (bitsNeeded n d p) as [N|e]; [|discriminate].
  injection E as <-. exact Hd.
Qed.

Lemma init_without_rounds_witness :
  -1 <= 0 /\
  __init__ 1 (-1) (1 / 2) = Ok (mkBloomFilter 1 (-1) (1 / 2) 0 [] 0) /\
  forall key : Z,
    insert sampleHash key (mkBloomFilter 1 (-1) (1 / 2) 0 [] 0)
    = Ok (tt, mkBloomFilter 1 (-1) (1 / 2) 0 [] 0, []) /\
    find sampleHash key (mkBloomFilter 1 (-1) (1 / 2) 0 [] 0)
    = Ok (true, mkBloomFilter 1 (-1) (1 / 2) 0 [] 0, []).
Proof.
  assert (Hd : -1 <= 0) by lia.
  assert (E : __init__ 1 (-1) (1 / 2)
              = Ok (mkBloomFilter 1 (-1) (1 / 2) 0 [] 0)).
  { unfold __init__. now rewrite bitsNeeded_sample_neg. }
  split; [exact Hd|]. split; [exact E|].
  exact (init_without_rounds sampleHash 1 (-1) (1 / 2) _ Hd E).
Defined.

Lemma bitsNeeded_numKeys_neg (p : R) :
  (1 / 2 < p < 1)%R -> bitsNeeded (-1) 1 p = Ok 0.
Proof.
  intros Hp. unfold bitsNeeded, result_bind.
  rewrite (py_truediv_ok 1 1) by lra.
  replace (1 / 1)%R with 1%R by lra.
  rewrite py_pow_pos by lra. rewrite Rpower_1 by lra.
  rewrite (py_truediv_ok 1 (-1)) by lra.
  replace (1 / -1)%R with (- (1))%R by lra.
  rewrite py_pow_pos by lra. rewrite Rpower_Ropp, Rpower_1 by lra.
  assert (Hinv : (2 < / (1 - p))%R).
  { replace 2%R with (/ (1 / 2))%R by lra.
    apply Rinv_lt_contravar; [nra|lra]. }
  rewrite py_truediv_ok by lra.
  f_equal. apply Zceil_eq.
  set (t := (1 - / (1 - p))%R) in *.
  assert (Ht : (t < -1)%R) by (unfold t; lra).
  assert (Eq : (1 / t * t = 1)%R) by (field; lra).
  split; simpl; nra.
Qed.

(** X11. A negative number of keys is accepted.  For every rate in
    (1/2, 1), [__init__(-1, 1, rate)] returns an instance with
    [numBits = 0]; on it every [insert] and every [find] raises
    [ZeroDivisionError], and so does [falsePositiveRate] (in exact real
    arithmetic). *)
Theorem init_negative_numKeys {Key : Type} (BitHash : Key -> Z -> Z)
    (p : R) :
  (1 / 2 < p < 1)%R ->
  exists s0,
    __init__ (-1) 1 p = Ok s0 /\
    numBits s0 = 0 /\
    falsePositiveRate s0 = Raise ZeroDivisionError /\
    forall key : Key,
      insert BitHash key s0 = Raise ZeroDivisionError /\
      find BitHash key s0 = Raise ZeroDivisionError.
Proof.
  intros Hp. exists (mkBloomFilter (-1) 1 p 0 [] 0).
  split; [unfold __init__; now rewrite (bitsNeeded_numKeys_neg p Hp)|].
  split; [reflexivity|]. split.
  - now apply falsePositiveRate_no_bits.
  - intros key. apply no_bits; simpl; lia.
Qed.

Lemma init_negative_numKeys_witness :
  (1 / 2 < 3 / 4 < 1)%R /\
  exists s0,
    __init__ (-1) 1 (3 / 4) = Ok s0 /\
    numBits s0 = 0 /\
    falsePositiveRate s0 = Raise ZeroDivisionError /\
    forall key : Z,
      insert sampleHash key s0 = Raise ZeroDivisionError /\
      find sampleHash key s0 = Raise ZeroDivisionError.
Proof.
  assert (Hp : (1 / 2 < 3 / 4 < 1)%R) by lra.
  split; [exact Hp|].
  exact (init_negative_numKeys sampleHash (3 / 4) Hp).
Defined.

(** ** The script's entry point *)


Section MainProps.

Variable BitHash : string -> Z -> Z.
Variable strip : string -> string.

Lemma words_read_length (n : nat) (f : list string) :
  length (words_read strip n f) = n.
Proof. revert f. induction n as [|n IH]; intros f; simpl; auto. Qed.





End MainProps.



(** ** Counting the bits set *)







Example numBitsSet_sample :
  exec (insert_all sampleHash [5; 7; 6]) sampleFilter
  = Ok (mkBloomFilter 1 1 (1 / 2) 2 [true; true] 2).
Proof. reflexivity. Qed.
